(** * FishIdentifier: the result-interpretation pipeline of
    [src/components/FishIdentifier.tsx]

    A shallow embedding of the component's handlers.  A JavaScript string
    is modelled as the [string] of its UTF-8 bytes: cutting at U+0020 and
    searching for an ASCII word give the same pieces and the same answers
    on the bytes as on the UTF-16 code units.  [undefined] and [null] are
    [None], the [number] type is the kernel's binary64 floats, and the
    React state cells are a record threaded through a small
    exception/state/log monad.  Lower-casing is the host's and is kept as
    a parameter. *)

From Stdlib Require Import String Ascii List Bool Arith Lia.
From Stdlib Require Import ZArith Floats.
Import ListNotations.

Set Warnings "-inexact-float".

Local Open Scope string_scope.
Local Open Scope list_scope.
Local Open Scope bool_scope.

(** ** JavaScript string and array primitives used by the component *)

Module JS.

(** [s.startsWith(p)] *)
Fixpoint startsWith (p s : string) : bool :=
  match p, s with
  | EmptyString, _ => true
  | String _ _, EmptyString => false
  | String a p', String b s' => Ascii.eqb a b && startsWith p' s'
  end.

(** [s.includes(p)]: [p] occurs at some offset of [s]. *)
Fixpoint includes (p s : string) : bool :=
  startsWith p s ||
  match s with
  | EmptyString => false
  | String _ s' => includes p s'
  end.

(** Splitting at every code unit selected by [sep]; the pieces between two
    separators are kept even when they are empty, and the empty string
    yields one empty piece, as [String.prototype.split] does for a
    non-empty separator. *)
Fixpoint splitBy (sep : ascii -> bool) (s : string) : list string :=
  match s with
  | EmptyString => [EmptyString]
  | String c s' =>
      if sep c then EmptyString :: splitBy sep s'
      else match splitBy sep s' with
           | w :: ws => String c w :: ws
           | [] => [String c EmptyString]
           end
  end.

Definition isSpace (c : ascii) : bool := Ascii.eqb c " "%char.

(** [s.split(' ')] *)
Definition split_space (s : string) : list string := splitBy isSpace s.

(** [a[i]]: reading an index that is out of range gives [undefined]. *)
Definition index {A : Type} (a : list A) (i : nat) : option A := nth_error a i.

(** A value interpolated in a template literal: [undefined] prints as the
    word itself. *)
Definition interpolate (v : option string) : string :=
  match v with
  | Some s => s
  | None => "undefined"
  end.

(** [a.slice(b, e)] for indices [0 <= b], [0 <= e]. *)
Definition slice {A : Type} (b e : nat) (a : list A) : list A :=
  firstn (e - b) (skipn b a).

(** [a.every(p)] *)
Definition every {A : Type} (p : A -> bool) (a : list A) : bool := forallb p a.

(** Truthiness of a [string | undefined] value: [undefined] and the empty
    string are falsy. *)
Definition truthy (v : option string) : bool :=
  match v with
  | None => false
  | Some EmptyString => false
  | Some (String _ _) => true
  end.

End JS.

(** ** Data model *)

(** An element of the classifier's answer ([item] in the source). *)
Record ClassificationEntry : Type := mkEntry {
  item_label : string;
  item_score : float
}.

(** [interface IdentificationResult] *)
Record IdentificationResult : Type := mkResult {
  label : string;
  score : float;
  species : option string;
  genus : option string;
  commonName : option string
}.

(** ** The interpreter *)

(** [extractSpecies] *)
Definition extractSpecies (label : string) : string :=
  let words := JS.split_space label in
  if (2 <=? List.length words)%nat
  then JS.interpolate (JS.index words 0) ++ " " ++ JS.interpolate (JS.index words 1)
  else label.

(** [extractGenus]: [label.split(' ')[0]] *)
Definition extractGenus (label : string) : option string :=
  JS.index (JS.split_space label) 0.

Section Interpreter.

(** [String.prototype.toLowerCase] is the host's; the interpreter is
    embedded over any lower-casing function. *)
Variable toLowerCase : string -> string.

(** The [isFishRelated] test of the [map] callback, on the lower-cased label. *)
Definition isFishRelated (item : ClassificationEntry) : bool :=
  let label := toLowerCase (item_label item) in
  JS.includes "fish" label ||
  JS.includes "salmon" label ||
  JS.includes "tuna" label ||
  JS.includes "bass" label ||
  JS.includes "shark" label ||
  JS.includes "trout" label ||
  JS.includes "cod" label ||
  JS.includes "marine" label ||
  JS.includes "aquatic" label.

(** The callback given to [map]. *)
Definition processItem (item : ClassificationEntry) : IdentificationResult :=
  let related := isFishRelated item in
  {| label := item_label item;
     score := item_score item;
     species := if related then Some (extractSpecies (item_label item)) else None;
     genus := if related then extractGenus (item_label item) else None;
     commonName := if related then Some (item_label item) else None |}.

(** [result.slice(0, 5).map(...)] *)
Definition processResults (result : list ClassificationEntry)
  : list IdentificationResult :=
  map processItem (JS.slice 0 5 result).

(** [processedResults.every(r => !r.species)] *)
Definition noFishDetected (processedResults : list IdentificationResult) : bool :=
  JS.every (fun r => negb (JS.truthy (species r))) processedResults.

End Interpreter.

(** ** Confidence badge of a result card *)

(** The three colour classes of the badge [span]: [High] is the green
    class list, [Medium] the yellow one, [Low] the red one. *)
Inductive Tier : Type := High | Medium | Low.

(** The conditional of the [className] template: [result.score > 0.7],
    then [result.score > 0.4]. *)
Definition badgeTier (score : float) : Tier :=
  if PrimFloat.ltb 0.7 score then High
  else if PrimFloat.ltb 0.4 score then Medium
  else Low.

(** ** Component state and handlers *)

Record File : Type := mkFile {
  file_name : string;
  file_type : string
}.

(** The [useState] cells of the component. *)
Record State : Type := mkState {
  image : option string;
  isLoading : bool;
  results : list IdentificationResult;
  isDragOver : bool
}.

(** What a handler does to the outside: notifications, console output,
    calls of the classification library and of the file reader. *)
Inductive Effect : Type :=
| ToastError (msg : string)
| ToastInfo (msg : string)
| ConsoleError (msg : string)
| PipelineCall (task model device : string)
| ClassifierCall (img : string)
| ReadAsDataURL (file : File)
| PreventDefault.

(** How an awaited promise settles. *)
Inductive Outcome (A : Type) : Type :=
| Resolved (a : A)
| Rejected (error : string).
Arguments Resolved {A} a.
Arguments Rejected {A} error.

(** How a block of statements completes. *)
Inductive Completion (A : Type) : Type :=
| Normal (a : A)
| Throw (error : string).
Arguments Normal {A} a.
Arguments Throw {A} error.

(** A handler reads and writes the state cells, logs its effects in order
    and completes normally or by throwing. *)
Definition Handler (A : Type) : Type :=
  State -> Completion A * State * list Effect.

Definition ret {A : Type} (a : A) : Handler A :=
  fun st => (Normal a, st, []).

Definition bind {A B : Type} (m : Handler A) (k : A -> Handler B) : Handler B :=
  fun st =>
    match m st with
    | (Normal a, st1, log1) =>
        let '(c, st2, log2) := k a st1 in (c, st2, log1 ++ log2)
    | (Throw e, st1, log1) => (Throw e, st1, log1)
    end.

Declare Scope handler_scope.
Delimit Scope handler_scope with handler.
Notation "x <- m ;; k" := (bind m (fun x => k))
  (at level 100, m at next level, right associativity) : handler_scope.
Notation "m ;; k" := (bind m (fun _ => k))
  (at level 100, right associativity) : handler_scope.
Local Open Scope handler_scope.

Definition emit (ev : Effect) : Handler unit :=
  fun st => (Normal tt, st, [ev]).

Definition readState : Handler State :=
  fun st => (Normal st, st, []).

Definition setImage (v : option string) : Handler unit :=
  fun st => (Normal tt, mkState v (isLoading st) (results st) (isDragOver st), []).

Definition setIsLoading (v : bool) : Handler unit :=
  fun st => (Normal tt, mkState (image st) v (results st) (isDragOver st), []).

Definition setResults (v : list IdentificationResult) : Handler unit :=
  fun st => (Normal tt, mkState (image st) (isLoading st) v (isDragOver st), []).

Definition setIsDragOver (v : bool) : Handler unit :=
  fun st => (Normal tt, mkState (image st) (isLoading st) (results st) v, []).

(** [await p]: the call is logged; a rejected promise throws. *)
Definition await {A : Type} (call : Effect) (p : Outcome A) : Handler A :=
  fun st =>
    (match p with Resolved a => Normal a | Rejected e => Throw e end, st, [call]).

(** [try { body } catch (error) { handler } finally { final }] *)
Definition tryCatchFinally (body : Handler unit) (handler : string -> Handler unit)
    (final : Handler unit) : Handler unit :=
  fun st =>
    let '(c1, st1, log1) := body st in
    let '(c2, st2, log2) :=
      match c1 with
      | Normal _ => (c1, st1, [])
      | Throw e => handler e st1
      end in
    let '(c3, st3, log3) := final st2 in
    (match c3 with Throw e => Throw e | Normal _ => c2 end,
     st3, log1 ++ log2 ++ log3).

(** The texts of the three notifications and of the console line. *)
Definition invalidImageMessage : string := "Please upload a valid image file".
Definition noFishMessage : string :=
  "This might not be a fish image. The AI couldn't detect any fish species.".
Definition failedMessage : string := "Failed to identify fish. Please try again.".
Definition consoleMessage : string := "Error identifying fish:".

(** [handleImageUpload] *)
Definition handleImageUpload (file : File) : Handler unit :=
  if negb (JS.startsWith "image/" (file_type file))
  then emit (ToastError invalidImageMessage)
  else emit (ReadAsDataURL file).

(** [reader.onload], called with [e.target?.result] once the read is done. *)
Definition readerOnload (result : option string) : Handler unit :=
  setImage result ;;
  setResults [].

(** [handleDrop], on [e.dataTransfer.files[0]] *)
Definition handleDrop (file : option File) : Handler unit :=
  emit PreventDefault ;;
  setIsDragOver false ;;
  match file with
  | Some f => handleImageUpload f
  | None => ret tt
  end.

(** [handleFileSelect], on [e.target.files?.[0]] *)
Definition handleFileSelect (file : option File) : Handler unit :=
  match file with
  | Some f => handleImageUpload f
  | None => ret tt
  end.

Definition Classifier : Type := string -> Outcome (list ClassificationEntry).

Section IdentifyFish.

Variable toLowerCase : string -> string.

(** [pipeline] of the classification library: how its promise settles for
    a task, a model and a device. *)
Variable pipeline : string -> string -> string -> Outcome Classifier.

(** The arguments of the [pipeline] call. *)
Definition pipelineCall : Effect :=
  PipelineCall "image-classification" "google/vit-base-patch16-224" "webgpu".

(** [identifyFish] *)
Definition identifyFish : Handler unit :=
  st <- readState ;;
  if negb (JS.truthy (image st)) then ret tt
  else
    match image st with
    | None => ret tt
    | Some img =>
        setIsLoading true ;;
        tryCatchFinally
          (classifier <- await pipelineCall
               (pipeline "image-classification" "google/vit-base-patch16-224" "webgpu") ;;
           result <- await (ClassifierCall img) (classifier img) ;;
           let processedResults := processResults toLowerCase result in
           setResults processedResults ;;
           if noFishDetected processedResults
           then emit (ToastInfo noFishMessage)
           else ret tt)
          (fun error =>
             emit (ConsoleError consoleMessage) ;;
             emit (ToastError failedMessage))
          (setIsLoading false)
    end.

End IdentifyFish.

(** ** Reference notions used to state the properties *)

(** The nine keywords of the relevance test. *)
Definition keywords : list string :=
  ["fish"; "salmon"; "tuna"; "bass"; "shark"; "trout"; "cod"; "marine"; "aquatic"].

(** [p] occurs in [s]. *)
Definition substring_of (p s : string) : Prop :=
  exists pre post, s = (pre ++ p ++ post)%string.

(** No code unit of [s] is selected by [sep]. *)
Fixpoint free_of (sep : ascii -> bool) (s : string) : bool :=
  match s with
  | EmptyString => true
  | String c s' => negb (sep c) && free_of sep s'
  end.

(** [ws] joined with single spaces. *)
Fixpoint join_space (ws : list string) : string :=
  match ws with
  | [] => EmptyString
  | [w] => w
  | w :: ws' => w ++ " " ++ join_space ws'
  end.

(** White space: space, tab, line feed, vertical tab, form feed, carriage
    return. *)
Definition isWhitespace (c : ascii) : bool :=
  let n := nat_of_ascii c in
  (n =? 32)%nat || ((9 <=? n)%nat && (n <=? 13)%nat).

Definition nonEmpty (s : string) : bool :=
  match s with
  | EmptyString => false
  | String _ _ => true
  end.

(** The whitespace-delimited tokens of a label, as the specification words
    genus and species: the non-empty pieces between white space. *)
Definition wsTokens (s : string) : list string :=
  filter nonEmpty (JS.splitBy isWhitespace s).

(** Genus and species as read off the whitespace-delimited tokens. *)
Definition tokenGenus (label : string) : option string :=
  hd_error (wsTokens label).

Definition tokenSpecies (label : string) : string :=
  match wsTokens label with
  | t0 :: t1 :: _ => t0 ++ " " ++ t1
  | _ => label
  end.

(** A label written with single spaces between its words and no other
    white space. *)
Definition singleSpaced (label : string) : bool :=
  forallb (fun w => nonEmpty w && free_of isWhitespace w) (JS.split_space label).

(** Lower-casing of the ASCII letters, which is what [toLowerCase] does on
    labels made of ASCII code units. *)
Definition asciiLower (c : ascii) : ascii :=
  let n := nat_of_ascii c in
  if ((65 <=? n)%nat && (n <=? 90)%nat) then ascii_of_nat (n + 32) else c.

Fixpoint asciiToLowerCase (s : string) : string :=
  match s with
  | EmptyString => EmptyString
  | String c s' => String (asciiLower c) (asciiToLowerCase s')
  end.

(** The classification entry a result was made from. *)
Definition toEntry (r : IdentificationResult) : ClassificationEntry :=
  mkEntry (label r) (score r).

(** The three derived fields are all absent, or all present. *)
Definition fieldsAbsent (r : IdentificationResult) : Prop :=
  species r = None /\ genus r = None /\ commonName r = None.

Definition fieldsPresent (r : IdentificationResult) : Prop :=
  exists s g, species r = Some s /\ genus r = Some g /\ commonName r = Some (label r).

(** Notifications shown to the user, and uses of the classifier. *)
Definition isToast (ev : Effect) : bool :=
  match ev with
  | ToastError _ | ToastInfo _ => true
  | _ => false
  end.

Definition isClassifierUse (ev : Effect) : bool :=
  match ev with
  | PipelineCall _ _ _ | ClassifierCall _ => true
  | _ => false
  end.

(** What a failed identification leaves behind: the stored results and
    image are those of before, and the one notification shown is the
    error. *)
Definition failureReported (before after : State) (log : list Effect) : Prop :=
  results after = results before /\
  image after = image before /\
  filter isToast log = [ToastError failedMessage].

(** Sample inputs. *)
Definition fiveEntries : list ClassificationEntry :=
  [mkEntry "tiger shark" 0.5%float; mkEntry "tench" 0.2%float;
   mkEntry "goldfish" 0.1%float; mkEntry "beach towel" 0.05%float;
   mkEntry "umbrella" 0.01%float].

Definition tabLabel : string := "bull" ++ String "009"%char "shark".

Definition sampleImage : string := "data:image/png;base64,iVBORw0KGgo=".

Definition sampleState : State :=
  mkState (Some sampleImage) false
    [mkResult "tench" 0.8%float (Some "tench") (Some "tench") (Some "tench")]
    false.

Definition failingPipeline : string -> string -> string -> Outcome Classifier :=
  fun _ _ _ => Rejected "no available backend found".

Definition failingClassifier : string -> string -> string -> Outcome Classifier :=
  fun _ _ _ => Resolved (fun _ => Rejected "unsupported input").

Definition workingPipeline : string -> string -> string -> Outcome Classifier :=
  fun _ _ _ => Resolved (fun _ => Resolved fiveEntries).

Definition umbrellaEntries : list ClassificationEntry :=
  [mkEntry "umbrella" 0.99%float].

Definition umbrellaPipeline : string -> string -> string -> Outcome Classifier :=
  fun _ _ _ => Resolved (fun _ => Resolved umbrellaEntries).

Definition pdfFile : File := mkFile "report.pdf" "application/pdf".

(** ** The remaining handlers and what the view shows *)

(** [onDragOver] and [onDragLeave] of the drop zone. *)
Definition handleDragOver : Handler unit :=
  emit PreventDefault ;;
  setIsDragOver true.

Definition handleDragLeave : Handler unit :=
  setIsDragOver false.

(** [onClick] of "Upload Different Image".  [fileInput] is the value of
    the element [fileInputRef.current] points to, [None] when the ref is
    empty; the handler returns what that value has become. *)
Definition uploadDifferentImage (fileInput : option string) : Handler (option string) :=
  setImage None ;;
  setResults [] ;;
  ret (match fileInput with
       | Some _ => Some EmptyString
       | None => None
       end).

(** The conditionals of the returned JSX: [image ? preview : prompt],
    [disabled={isLoading}], [results.length > 0 && card list] and, in a
    card, [result.species && genus/species grid]. *)
Definition showsPreview (st : State) : bool := JS.truthy (image st).

Definition identifyDisabled (st : State) : bool := isLoading st.

Definition showsResults (st : State) : bool := (0 <? List.length (results st))%nat.

Definition showsTaxonomy (r : IdentificationResult) : bool := JS.truthy (species r).

(** ** [identifyFish] between its [await]s

    An [async] function runs up to its first [await], and goes on when the
    awaited promise has settled; other handlers can run in between.  The
    three stretches of [identifyFish] are given one by one: [img] is the
    [image] the call has captured. *)

(** [catch] followed by [finally]. *)
Definition identifyFishFailed : Handler unit :=
  emit (ConsoleError consoleMessage) ;;
  emit (ToastError failedMessage) ;;
  setIsLoading false.

(** From the call to [await pipeline(...)]: the captured image, or [None]
    when the guard returns. *)
Definition identifyFishStart : Handler (option string) :=
  st <- readState ;;
  if negb (JS.truthy (image st)) then ret None
  else
    match image st with
    | None => ret None
    | Some img =>
        setIsLoading true ;;
        emit pipelineCall ;;
        ret (Some img)
    end.

(** From the settling of [pipeline] to [await classifier(image)]: the
    promise now awaited, or [None] when the call is over. *)
Definition identifyFishPipelineSettled (img : string) (p : Outcome Classifier)
  : Handler (option (Outcome (list ClassificationEntry))) :=
  match p with
  | Rejected _ => identifyFishFailed ;; ret None
  | Resolved classifier =>
      emit (ClassifierCall img) ;;
      ret (Some (classifier img))
  end.

(** From the settling of the classifier to the end. *)
Definition identifyFishClassifierSettled (toLowerCase : string -> string)
    (r : Outcome (list ClassificationEntry)) : Handler unit :=
  match r with
  | Rejected _ => identifyFishFailed
  | Resolved result =>
      let processedResults := processResults toLowerCase result in
      setResults processedResults ;;
      (if noFishDetected processedResults
       then emit (ToastInfo noFishMessage)
       else ret tt) ;;
      setIsLoading false
  end.

(** The three stretches run back to back. *)
Definition identifyFishInOneGo (toLowerCase : string -> string)
    (pipeline : string -> string -> string -> Outcome Classifier) : Handler unit :=
  started <- identifyFishStart ;;
  match started with
  | None => ret tt
  | Some img =>
      awaited <- identifyFishPipelineSettled img
        (pipeline "image-classification" "google/vit-base-patch16-224" "webgpu") ;;
      match awaited with
      | None => ret tt
      | Some r => identifyFishClassifierSettled toLowerCase r
      end
  end.

(** The state a handler leaves, and what it logs. *)
Definition stateAfter {A : Type} (h : Handler A) (st : State) : State :=
  snd (fst (h st)).

Definition logOf {A : Type} (h : Handler A) (st : State) : list Effect :=
  snd (h st).

(** ** Further reference notions *)

(** How many space characters a label holds. *)
Fixpoint countSpaces (s : string) : nat :=
  match s with
  | EmptyString => 0
  | String c s' => (if JS.isSpace c then 1 else 0) + countSpaces s'
  end.

(** The badges in rising order. *)
Definition tierRank (t : Tier) : nat :=
  match t with
  | Low => 0
  | Medium => 1
  | High => 2
  end.

Definition isReaderUse (ev : Effect) : bool :=
  match ev with
  | ReadAsDataURL _ => true
  | _ => false
  end.

Definition sixEntries : list ClassificationEntry :=
  [mkEntry "beach towel" 0.4%float; mkEntry "umbrella" 0.2%float;
   mkEntry "sandbar" 0.1%float; mkEntry "seashore" 0.1%float;
   mkEntry "snorkel" 0.05%float; mkEntry "tiger shark" 0.04%float].

(** ** Scenarios *)

Example scenario1 :
  processResults asciiToLowerCase
    [mkEntry "tiger shark" 0.92%float; mkEntry "beach towel" 0.05%float]
  = [mkResult "tiger shark" 0.92%float (Some "tiger shark") (Some "tiger") (Some "tiger shark");
     mkResult "beach towel" 0.05%float None None None].
Proof. reflexivity. Qed.

(** ** Strings: prefixes, occurrences and pieces *)

Lemma startsWith_spec (p s : string) :
  JS.startsWith p s = true <-> exists post, s = (p ++ post)%string.
Proof.
  revert s; induction p as [|a p IH]; intros s; simpl.
  - split; [intros _; now exists s | reflexivity].
  - destruct s as [|b s].
    + split; [discriminate | intros [post H]; discriminate].
    + rewrite andb_true_iff, Ascii.eqb_eq, IH. split.
      * intros [-> [post ->]]. now exists post.
      * intros [post H]. injection H as -> ->. split; [reflexivity | now exists post].
Qed.

Lemma includes_spec (p s : string) :
  JS.includes p s = true <-> substring_of p s.
Proof.
  unfold substring_of. induction s as [|c s IH].
  - simpl. rewrite orb_false_r, startsWith_spec. split.
    + intros [post H]. now exists EmptyString, post.
    + intros [pre [post H]]. destruct pre; simpl in H.
      * now exists post.
      * discriminate.
  - simpl. rewrite orb_true_iff, startsWith_spec, IH. split.
    + intros [[post H] | [pre [post H]]].
      * now exists EmptyString, post.
      * exists (String c pre), post. simpl. now rewrite H.
    + intros [pre [post H]]. destruct pre as [|d pre]; simpl in H.
      * left. now exists post.
      * right. injection H as _ H. now exists pre, post.
Qed.

Lemma substring_of_trans (p q s : string) :
  substring_of p q -> substring_of q s -> substring_of p s.
Proof.
  intros [a [b ->]] [c [d ->]].
  exists (c ++ a)%string, (b ++ d)%string.
  induction c as [|x c IH]; simpl.
  - induction a as [|y a IHa]; simpl.
    + induction p as [|z p IHp]; simpl; [reflexivity | now rewrite IHp].
    + now rewrite IHa.
  - now rewrite IH.
Qed.

Lemma splitBy_nonempty (sep : ascii -> bool) (s : string) :
  JS.splitBy sep s <> [].
Proof.
  destruct s as [|c s]; simpl; [discriminate|].
  destruct (sep c); [discriminate|].
  destruct (JS.splitBy sep s); discriminate.
Qed.

Lemma splitBy_pieces_free (sep : ascii -> bool) (s : string) :
  forallb (free_of sep) (JS.splitBy sep s) = true.
Proof.
  induction s as [|c s IH]; simpl; [reflexivity|].
  destruct (sep c) eqn:E; simpl; [exact IH|].
  destruct (JS.splitBy sep s) as [|w ws]; simpl in *.
  - now rewrite E.
  - now rewrite E.
Qed.

Lemma splitBy_at_sep (sep : ascii -> bool) (c : ascii) (s : string) :
  sep c = true -> JS.splitBy sep (String c s) = EmptyString :: JS.splitBy sep s.
Proof. intros H. simpl. now rewrite H. Qed.

Lemma splitBy_at_other (sep : ascii -> bool) (c : ascii) (s : string) w ws :
  sep c = false -> JS.splitBy sep s = w :: ws ->
  JS.splitBy sep (String c s) = String c w :: ws.
Proof. intros H E. simpl. now rewrite H, E. Qed.

Lemma join_space_cons (w w' : string) (ws : list string) :
  join_space (w :: w' :: ws) = (w ++ String " " (join_space (w' :: ws)))%string.
Proof. reflexivity. Qed.

Lemma split_space_join (s : string) :
  join_space (JS.split_space s) = s.
Proof.
  unfold JS.split_space. induction s as [|c s IH]; [reflexivity|].
  pose proof (splitBy_nonempty JS.isSpace s) as Hne.
  destruct (JS.splitBy JS.isSpace s) as [|w ws] eqn:E; [contradiction|].
  destruct (JS.isSpace c) eqn:Hc.
  - rewrite (splitBy_at_sep _ _ _ Hc), E, join_space_cons, IH.
    unfold JS.isSpace in Hc. apply Ascii.eqb_eq in Hc. now subst c.
  - rewrite (splitBy_at_other _ _ _ _ _ Hc E).
    destruct ws as [|w' ws].
    + simpl in *. now rewrite IH.
    + rewrite join_space_cons. rewrite join_space_cons in IH.
      cbn [append]. now rewrite IH.
Qed.

(** The pieces are determined by the two properties above: a list of
    space-free strings has only one way of being the pieces of its join. *)
Lemma split_space_unique (ws : list string) :
  ws <> [] ->
  forallb (free_of JS.isSpace) ws = true ->
  JS.split_space (join_space ws) = ws.
Proof.
  unfold JS.split_space.
  induction ws as [|w ws IH]; [contradiction|]. intros _ Hfree.
  simpl in Hfree. apply andb_true_iff in Hfree as [Hw Hws].
  destruct ws as [|w' ws].
  - clear IH Hws. simpl. induction w as [|c w IHw]; [reflexivity|].
    simpl in Hw. apply andb_true_iff in Hw as [Hc Hw].
    apply negb_true_iff in Hc.
    now rewrite (splitBy_at_other _ _ _ _ _ Hc (IHw Hw)).
  - rewrite join_space_cons.
    assert (Hrest : JS.splitBy JS.isSpace (join_space (w' :: ws)) = w' :: ws)
      by (apply IH; [discriminate | exact Hws]).
    clear IH Hws. induction w as [|c w IHw].
    + cbn [append]. rewrite splitBy_at_sep by reflexivity. now rewrite Hrest.
    + simpl in Hw. apply andb_true_iff in Hw as [Hc Hw].
      apply negb_true_iff in Hc. cbn [append].
      now rewrite (splitBy_at_other _ _ _ _ _ Hc (IHw Hw)).
Qed.

(** On a label whose words are separated by single spaces and that holds
    no other white space, the pieces of [split(' ')] are the
    whitespace-delimited tokens. *)
Lemma splitBy_space_whitespace (s : string) :
  forallb (free_of isWhitespace) (JS.splitBy JS.isSpace s) = true ->
  JS.splitBy isWhitespace s = JS.splitBy JS.isSpace s.
Proof.
  induction s as [|c s IH]; [reflexivity|].
  pose proof (splitBy_nonempty JS.isSpace s) as Hne.
  destruct (JS.splitBy JS.isSpace s) as [|w ws] eqn:E; [contradiction|].
  destruct (JS.isSpace c) eqn:Hc.
  - rewrite (splitBy_at_sep _ _ _ Hc), E. simpl forallb. intros H.
    assert (Hw : isWhitespace c = true).
    { unfold JS.isSpace in Hc. apply Ascii.eqb_eq in Hc. now subst c. }
    rewrite (splitBy_at_sep _ _ _ Hw). now rewrite IH.
  - rewrite (splitBy_at_other _ _ _ _ _ Hc E). simpl forallb.
    rewrite !andb_true_iff, negb_true_iff. intros [[Hw Hfree] Hws].
    apply (splitBy_at_other _ _ _ _ _ Hw). apply IH.
    simpl. now rewrite Hfree, Hws.
Qed.

Lemma filter_nonEmpty_all (ws : list string) :
  forallb nonEmpty ws = true -> filter nonEmpty ws = ws.
Proof.
  induction ws as [|w ws IH]; simpl; [reflexivity|].
  rewrite andb_true_iff. intros [Hw Hws]. now rewrite Hw, IH.
Qed.

Lemma wsTokens_singleSpaced (label : string) :
  singleSpaced label = true -> wsTokens label = JS.split_space label.
Proof.
  unfold singleSpaced, wsTokens, JS.split_space. intros H.
  assert (H1 : forallb nonEmpty (JS.splitBy JS.isSpace label) = true /\
               forallb (free_of isWhitespace) (JS.splitBy JS.isSpace label) = true).
  { induction (JS.splitBy JS.isSpace label) as [|w ws IH]; simpl in *; [auto|].
    apply andb_true_iff in H as [Hw Hws]. apply andb_true_iff in Hw as [Hn Hf].
    destruct (IH Hws) as [IH1 IH2]. now rewrite Hn, Hf, IH1, IH2. }
  destruct H1 as [Hn Hf].
  rewrite (splitBy_space_whitespace _ Hf). now apply filter_nonEmpty_all.
Qed.

(** ** The pieces read by [extractGenus] and [extractSpecies] *)

Lemma extractGenus_first (label w : string) (ws : list string) :
  JS.split_space label = w :: ws -> extractGenus label = Some w.
Proof. unfold extractGenus. now intros ->. Qed.

Lemma extractSpecies_pieces (label w : string) (ws : list string) :
  JS.split_space label = w :: ws ->
  extractSpecies label =
    match ws with
    | [] => label
    | w1 :: _ => (w ++ " " ++ w1)%string
    end.
Proof.
  unfold extractSpecies. intros ->. destruct ws as [|w1 ws]; reflexivity.
Qed.

Lemma split_space_cons (label : string) :
  exists w ws, JS.split_space label = w :: ws.
Proof.
  pose proof (splitBy_nonempty JS.isSpace label) as Hne.
  unfold JS.split_space. destruct (JS.splitBy JS.isSpace label) as [|w ws].
  - contradiction.
  - now exists w, ws.
Qed.

(** On single-spaced labels the two readings of genus and species agree. *)
Lemma extract_agrees_with_tokens (label : string) :
  singleSpaced label = true ->
  extractGenus label = tokenGenus label /\
  extractSpecies label = tokenSpecies label.
Proof.
  intros H. unfold tokenGenus, tokenSpecies.
  rewrite (wsTokens_singleSpaced _ H).
  destruct (split_space_cons label) as [w [ws E]].
  rewrite (extractGenus_first _ _ _ E), (extractSpecies_pieces _ _ _ E), E.
  split; [reflexivity|]. destruct ws; reflexivity.
Qed.

Lemma extractSpecies_nonempty (label : string) :
  label <> EmptyString -> extractSpecies label <> EmptyString.
Proof.
  intros Hl. destruct (split_space_cons label) as [w [ws E]].
  rewrite (extractSpecies_pieces _ _ _ E). destruct ws as [|w1 ws]; [exact Hl|].
  destruct w; discriminate.
Qed.

(** ** Relevance *)

Section InterpreterFacts.

Variable toLowerCase : string -> string.

Lemma isFishRelated_keyword (item : ClassificationEntry) :
  isFishRelated toLowerCase item = true <->
  exists kw, In kw keywords /\ substring_of kw (toLowerCase (item_label item)).
Proof.
  unfold isFishRelated. cbv zeta.
  rewrite !orb_true_iff, !includes_spec. split.
  - intros H.
    repeat (destruct H as [H | H]);
      (eexists; split; [|exact H]); simpl; tauto.
  - intros [kw [Hin H]]. simpl in Hin.
    repeat (destruct Hin as [<- | Hin]; [tauto|]). contradiction.
Qed.

Lemma processItem_related (item : ClassificationEntry) :
  isFishRelated toLowerCase item = true ->
  processItem toLowerCase item =
    mkResult (item_label item) (item_score item)
             (Some (extractSpecies (item_label item)))
             (extractGenus (item_label item))
             (Some (item_label item)).
Proof. unfold processItem. now intros ->. Qed.

Lemma processItem_unrelated (item : ClassificationEntry) :
  isFishRelated toLowerCase item = false ->
  processItem toLowerCase item =
    mkResult (item_label item) (item_score item) None None None.
Proof. unfold processItem. now intros ->. Qed.

Lemma slice_0 {A : Type} (n : nat) (a : list A) : JS.slice 0 n a = firstn n a.
Proof. unfold JS.slice. now rewrite Nat.sub_0_r. Qed.

Lemma processResults_firstn (result : list ClassificationEntry) :
  processResults toLowerCase result = map (processItem toLowerCase) (firstn 5 result).
Proof. unfold processResults. now rewrite slice_0. Qed.

Lemma processResults_length (result : list ClassificationEntry) :
  List.length (processResults toLowerCase result) = Nat.min (List.length result) 5.
Proof.
  rewrite processResults_firstn, length_map, length_firstn. apply Nat.min_comm.
Qed.

End InterpreterFacts.

(** ** Properties of the interpreter *)

(** C1. An entry is judged fish-relevant exactly when its lower-cased label
    holds one of the nine keywords as a substring, and each of the derived
    fields [species], [genus] and [commonName] is present in the record
    exactly when the entry is judged fish-relevant. *)
Theorem relevance_by_keyword_substring
    (toLowerCase : string -> string) (item : ClassificationEntry) :
  (isFishRelated toLowerCase item = true <->
   exists kw, In kw keywords /\ substring_of kw (toLowerCase (item_label item))) /\
  (species (processItem toLowerCase item) <> None <->
   isFishRelated toLowerCase item = true) /\
  (genus (processItem toLowerCase item) <> None <->
   isFishRelated toLowerCase item = true) /\
  (commonName (processItem toLowerCase item) <> None <->
   isFishRelated toLowerCase item = true).
Proof.
  split; [apply isFishRelated_keyword|].
  destruct (split_space_cons (item_label item)) as [w [ws E]].
  destruct (isFishRelated toLowerCase item) eqn:R.
  - rewrite (processItem_related _ _ R). simpl.
    rewrite (extractGenus_first _ _ _ E).
    repeat split; intros; try reflexivity; discriminate.
  - rewrite (processItem_unrelated _ _ R). simpl.
    repeat split; intros; try discriminate; contradiction.
Qed.

(** No token boundary is looked at: a label whose lower-cased form holds
    "catfishery" is judged relevant through "fish". *)
Lemma catfishery_is_relevant
    (toLowerCase : string -> string) (item : ClassificationEntry) :
  substring_of "catfishery" (toLowerCase (item_label item)) ->
  isFishRelated toLowerCase item = true.
Proof.
  intros H. apply isFishRelated_keyword. exists "fish". split; [simpl; tauto|].
  apply (substring_of_trans _ "catfishery"); [|exact H].
  now exists "cat", "ery".
Qed.

Example catfishery_example :
  isFishRelated asciiToLowerCase (mkEntry "Catfishery pond" 0.5%float) = true.
Proof. reflexivity. Qed.

(** C2, amended. For a fish-relevant entry the label is cut at every
    space character (U+0020): the pieces [w :: ws] hold no space, joined
    with single spaces they give the label back, [genus] is the first
    piece, [species] is the first two pieces joined by a space when there
    are at least two and the whole label otherwise, and [commonName] is
    the label. *)
Theorem derived_fields_of_space_pieces
    (toLowerCase : string -> string) (item : ClassificationEntry) :
  isFishRelated toLowerCase item = true ->
  exists w ws,
    JS.split_space (item_label item) = w :: ws /\
    join_space (w :: ws) = item_label item /\
    forallb (free_of JS.isSpace) (w :: ws) = true /\
    genus (processItem toLowerCase item) = Some w /\
    species (processItem toLowerCase item) =
      Some (match ws with
            | [] => item_label item
            | w1 :: _ => (w ++ " " ++ w1)%string
            end) /\
    commonName (processItem toLowerCase item) = Some (item_label item).
Proof.
  intros R. destruct (split_space_cons (item_label item)) as [w [ws E]].
  exists w, ws. rewrite (processItem_related _ _ R).
  cbn [species genus commonName].
  rewrite (extractGenus_first _ _ _ E), (extractSpecies_pieces _ _ _ E).
  split; [exact E|].
  split; [rewrite <- E; apply split_space_join|].
  split; [rewrite <- E; apply splitBy_pieces_free|].
  repeat split.
Qed.

Lemma derived_fields_of_space_pieces_witness :
  isFishRelated asciiToLowerCase (mkEntry "tiger shark" 0.92%float) = true /\
  exists w ws,
    JS.split_space "tiger shark" = w :: ws /\
    join_space (w :: ws) = "tiger shark" /\
    forallb (free_of JS.isSpace) (w :: ws) = true /\
    genus (processItem asciiToLowerCase (mkEntry "tiger shark" 0.92%float)) = Some w /\
    species (processItem asciiToLowerCase (mkEntry "tiger shark" 0.92%float)) =
      Some (match ws with
            | [] => "tiger shark"
            | w1 :: _ => (w ++ " " ++ w1)%string
            end) /\
    commonName (processItem asciiToLowerCase (mkEntry "tiger shark" 0.92%float))
      = Some "tiger shark".
Proof.
  split; [reflexivity|].
  apply (derived_fields_of_space_pieces asciiToLowerCase
           (mkEntry "tiger shark" 0.92%float)).
  reflexivity.
Defined.

(** C2 as stated fails: a tab is white space but not a cut point of
    [split(' ')], so for the relevant label "bull<TAB>shark" the genus and
    the species are the whole label, not the tokens "bull" and
    "bull shark". *)
Lemma genus_is_not_whitespace_token :
  isFishRelated asciiToLowerCase (mkEntry tabLabel 0.9%float) = true /\
  tokenGenus tabLabel = Some "bull" /\
  tokenSpecies tabLabel = "bull shark" /\
  genus (processItem asciiToLowerCase (mkEntry tabLabel 0.9%float)) = Some tabLabel /\
  genus (processItem asciiToLowerCase (mkEntry tabLabel 0.9%float))
    <> tokenGenus tabLabel /\
  species (processItem asciiToLowerCase (mkEntry tabLabel 0.9%float))
    <> Some (tokenSpecies tabLabel).
Proof. repeat split; try reflexivity; vm_compute; discriminate. Qed.

(** Two spaces in a row give an empty piece, which the species keeps. *)
Example double_space_species :
  species (processItem asciiToLowerCase (mkEntry "bull  shark" 0.9%float))
    = Some "bull " /\
  tokenSpecies "bull  shark" = "bull shark".
Proof. split; reflexivity. Qed.

Example scenario5 :
  processItem asciiToLowerCase (mkEntry "cod" 0.6%float)
  = mkResult "cod" 0.6%float (Some "cod") (Some "cod") (Some "cod").
Proof. reflexivity. Qed.

Lemma toEntry_processItem (toLowerCase : string -> string) (item : ClassificationEntry) :
  toEntry (processItem toLowerCase item) = item.
Proof. now destruct item. Qed.

Lemma toEntry_processed (toLowerCase : string -> string) (l : list ClassificationEntry) :
  map toEntry (map (processItem toLowerCase) l) = l.
Proof.
  induction l as [|item l IH]; simpl; [reflexivity|].
  now rewrite toEntry_processItem, IH.
Qed.

(** C3. The output has the length of the truncated input, its records
    carry, position by position, the labels and scores of the truncated
    input, and the record at index [i] is the one made from the entry at
    index [i]. *)
Theorem order_and_scores_preserved
    (toLowerCase : string -> string) (result : list ClassificationEntry) :
  let truncated := JS.slice 0 5 result in
  let processedResults := processResults toLowerCase result in
  List.length processedResults = List.length truncated /\
  map toEntry processedResults = truncated /\
  forall i,
    nth_error processedResults i =
    option_map (processItem toLowerCase) (nth_error truncated i).
Proof.
  cbv zeta. unfold processResults. split; [apply length_map|].
  split; [apply toEntry_processed|].
  intros i. apply nth_error_map.
Qed.

(** C4 as stated fails: the interpreter takes no limit, so where the claim
    expects two records out of five entries, five come out. *)
Lemma no_topK_limit :
  List.length fiveEntries = 5 /\
  List.length (processResults asciiToLowerCase fiveEntries) = 5 /\
  List.length (processResults asciiToLowerCase fiveEntries)
    <> Nat.min (List.length fiveEntries) 2.
Proof. repeat split; try reflexivity. vm_compute. discriminate. Qed.

(** C4, amended. The limit is the constant 5: the output has
    [min n 5] records, they are made from the first five entries in turn,
    and the entries after the fifth have no influence. *)
Theorem truncation_to_first_five
    (toLowerCase : string -> string) (result : list ClassificationEntry) :
  List.length (processResults toLowerCase result) = Nat.min (List.length result) 5 /\
  processResults toLowerCase result = map (processItem toLowerCase) (firstn 5 result) /\
  processResults toLowerCase result = processResults toLowerCase (firstn 5 result).
Proof.
  split; [apply processResults_length|].
  split; [apply processResults_firstn|].
  rewrite !processResults_firstn. f_equal.
  symmetry. rewrite firstn_firstn. reflexivity.
Qed.

Example scenario4_as_coded :
  map label (processResults asciiToLowerCase fiveEntries)
  = ["tiger shark"; "tench"; "goldfish"; "beach towel"; "umbrella"].
Proof. reflexivity. Qed.

(** C9. Running the interpreter again on the labels and scores of its own
    output judges the entries as the first run did; the second run even
    returns the same records. *)
Theorem relevance_idempotent
    (toLowerCase : string -> string) (result : list ClassificationEntry) :
  let first := processResults toLowerCase result in
  let again := map toEntry first in
  map (isFishRelated toLowerCase) (JS.slice 0 5 again)
    = map (isFishRelated toLowerCase) (JS.slice 0 5 result) /\
  processResults toLowerCase again = first.
Proof.
  cbv zeta. unfold processResults.
  rewrite toEntry_processed, !slice_0, firstn_firstn.
  split; reflexivity.
Qed.

Example single_token_and_empty_labels :
  processItem asciiToLowerCase (mkEntry "cod" 0.3%float)
    = mkResult "cod" 0.3%float (Some "cod") (Some "cod") (Some "cod") /\
  extractGenus "" = Some "" /\ extractSpecies "" = "".
Proof. repeat split. Qed.

(** ** The aggregate signal *)

Lemma related_label_nonempty
    (toLowerCase : string -> string) (item : ClassificationEntry) :
  toLowerCase EmptyString = EmptyString ->
  isFishRelated toLowerCase item = true ->
  item_label item <> EmptyString.
Proof.
  intros Hlow R E. unfold isFishRelated in R. rewrite E, Hlow in R. discriminate.
Qed.

Lemma species_falsy_iff_absent
    (toLowerCase : string -> string) (item : ClassificationEntry) :
  toLowerCase EmptyString = EmptyString ->
  negb (JS.truthy (species (processItem toLowerCase item))) = true <->
  species (processItem toLowerCase item) = None.
Proof.
  intros Hlow. destruct (isFishRelated toLowerCase item) eqn:R.
  - rewrite (processItem_related _ _ R). cbn [species].
    pose proof (extractSpecies_nonempty _ (related_label_nonempty _ _ Hlow R)) as Hne.
    destruct (extractSpecies (item_label item)); [contradiction|].
    simpl. split; discriminate.
  - rewrite (processItem_unrelated _ _ R). simpl. split; reflexivity.
Qed.

Lemma noFishDetected_iff_absent
    (toLowerCase : string -> string) (result : list ClassificationEntry) :
  toLowerCase EmptyString = EmptyString ->
  noFishDetected (processResults toLowerCase result) = true <->
  Forall (fun r => species r = None) (processResults toLowerCase result).
Proof.
  intros Hlow. rewrite processResults_firstn. unfold noFishDetected, JS.every.
  induction (firstn 5 result) as [|item l IH]; cbn [map forallb].
  - split; [constructor | reflexivity].
  - rewrite andb_true_iff, Forall_cons_iff, IH.
    pose proof (species_falsy_iff_absent toLowerCase item Hlow) as Hitem.
    tauto.
Qed.

Lemma asciiToLowerCase_empty : asciiToLowerCase EmptyString = EmptyString.
Proof. reflexivity. Qed.

Example scenario2 :
  processResults asciiToLowerCase [mkEntry "umbrella" 0.99%float]
    = [mkResult "umbrella" 0.99%float None None None] /\
  noFishDetected (processResults asciiToLowerCase [mkEntry "umbrella" 0.99%float]) = true.
Proof. split; reflexivity. Qed.

Example scenario1_signal :
  noFishDetected (processResults asciiToLowerCase
    [mkEntry "tiger shark" 0.92%float; mkEntry "beach towel" 0.05%float]) = false.
Proof. reflexivity. Qed.

(** ** The handlers *)

Section HandlerFacts.

Variable toLowerCase : string -> string.
Variable pipeline : string -> string -> string -> Outcome Classifier.

(** Without an image the handler returns at once. *)
Lemma identifyFish_without_image (st : State) :
  JS.truthy (image st) = false ->
  identifyFish toLowerCase pipeline st = (Normal tt, st, []).
Proof.
  intros H. unfold identifyFish, bind, readState. now rewrite H.
Qed.

Lemma identifyFish_pipeline_rejected (st : State) (img error : string) :
  image st = Some img -> JS.truthy (Some img) = true ->
  pipeline "image-classification" "google/vit-base-patch16-224" "webgpu"
    = Rejected error ->
  identifyFish toLowerCase pipeline st =
    (Normal tt, mkState (Some img) false (results st) (isDragOver st),
     [pipelineCall; ConsoleError consoleMessage; ToastError failedMessage]).
Proof.
  intros Hi Ht Hp.
  unfold identifyFish, bind, readState, tryCatchFinally, await, bind.
  rewrite Hi, Ht, Hp. cbn. now rewrite Hi.
Qed.

Lemma identifyFish_classifier_rejected
    (st : State) (img error : string) (classifier : Classifier) :
  image st = Some img -> JS.truthy (Some img) = true ->
  pipeline "image-classification" "google/vit-base-patch16-224" "webgpu"
    = Resolved classifier ->
  classifier img = Rejected error ->
  identifyFish toLowerCase pipeline st =
    (Normal tt, mkState (Some img) false (results st) (isDragOver st),
     [pipelineCall; ClassifierCall img;
      ConsoleError consoleMessage; ToastError failedMessage]).
Proof.
  intros Hi Ht Hp Hc.
  unfold identifyFish, bind, readState, tryCatchFinally, await, bind.
  rewrite Hi, Ht, Hp. cbn. rewrite Hc. cbn. now rewrite Hi.
Qed.

Lemma identifyFish_resolved
    (st : State) (img : string) (classifier : Classifier)
    (result : list ClassificationEntry) :
  image st = Some img -> JS.truthy (Some img) = true ->
  pipeline "image-classification" "google/vit-base-patch16-224" "webgpu"
    = Resolved classifier ->
  classifier img = Resolved result ->
  identifyFish toLowerCase pipeline st =
    (Normal tt,
     mkState (Some img) false (processResults toLowerCase result) (isDragOver st),
     [pipelineCall; ClassifierCall img] ++
     (if noFishDetected (processResults toLowerCase result)
      then [ToastInfo noFishMessage] else [])).
Proof.
  intros Hi Ht Hp Hc.
  unfold identifyFish, bind, readState, tryCatchFinally, await, bind.
  rewrite Hi, Ht, Hp. cbn -[processResults noFishDetected]. rewrite Hc.
  destruct (noFishDetected (processResults toLowerCase result));
    cbn -[processResults]; now rewrite Hi.
Qed.

End HandlerFacts.

(** C6. The interpreter gives a result on every input: the empty sequence
    gives the empty output; [split(' ')] always has a first piece, so
    [extractGenus] never reads [undefined], and [extractSpecies] only
    interpolates pieces that exist; every record of the output has its
    three derived fields all absent or all present; and whatever sequence
    the classifier delivers, [identifyFish] stores its interpretation and
    completes normally without entering its [catch] block. *)
Theorem interpreter_total
    (toLowerCase : string -> string) (result : list ClassificationEntry) :
  processResults toLowerCase [] = [] /\
  (forall label : string,
     exists w ws,
       JS.split_space label = w :: ws /\
       extractGenus label = Some w /\
       extractSpecies label =
         match ws with
         | [] => label
         | w1 :: _ => (w ++ " " ++ w1)%string
         end) /\
  (exists processedResults,
     processResults toLowerCase result = processedResults /\
     List.length processedResults = Nat.min (List.length result) 5 /\
     Forall (fun r => fieldsAbsent r \/ fieldsPresent r) processedResults) /\
  (forall (c : ascii) (img : string) (busy drag : bool)
          (stored : list IdentificationResult),
     identifyFish toLowerCase (fun _ _ _ => Resolved (fun _ => Resolved result))
       (mkState (Some (String c img)) busy stored drag)
     = (Normal tt,
        mkState (Some (String c img)) false (processResults toLowerCase result) drag,
        [pipelineCall; ClassifierCall (String c img)] ++
        (if noFishDetected (processResults toLowerCase result)
         then [ToastInfo noFishMessage] else []))).
Proof.
  split; [reflexivity|]. split; [|split].
  - intros l. destruct (split_space_cons l) as [w [ws E]]. exists w, ws.
    split; [exact E|]. split.
    + exact (extractGenus_first _ _ _ E).
    + exact (extractSpecies_pieces _ _ _ E).
  - eexists. split; [reflexivity|]. split; [apply processResults_length|].
    rewrite processResults_firstn. apply Forall_forall.
    intros r Hr. apply in_map_iff in Hr as [item [<- _]].
    destruct (isFishRelated toLowerCase item) eqn:R.
    + right. rewrite (processItem_related _ _ R).
      destruct (split_space_cons (item_label item)) as [w [ws E]].
      exists (extractSpecies (item_label item)), w.
      cbn [species genus commonName label].
      now rewrite (extractGenus_first _ _ _ E).
    + left. rewrite (processItem_unrelated _ _ R). now repeat split.
  - intros c img busy drag stored.
    exact (identifyFish_resolved toLowerCase
             (fun _ _ _ => Resolved (fun _ => Resolved result))
             (mkState (Some (String c img)) busy stored drag) (String c img)
             (fun _ => Resolved result) result eq_refl eq_refl eq_refl eq_refl).
Qed.

(** C10. With an image loaded, [identifyFish] always completes normally
    with the busy flag back to [false]; when the creation of the pipeline
    or the call of the classifier fails, the stored results and image are
    those of before the call and the only notification shown is the one
    error message; when both succeed, the stored results are the
    interpreted ones. *)
Theorem identifyFish_failure_and_busy_flag
    (toLowerCase : string -> string)
    (pipeline : string -> string -> string -> Outcome Classifier)
    (st : State) (img : string) :
  image st = Some img ->
  JS.truthy (Some img) = true ->
  let '(completion, st', log) := identifyFish toLowerCase pipeline st in
  completion = Normal tt /\
  isLoading st' = false /\
  match pipeline "image-classification" "google/vit-base-patch16-224" "webgpu" with
  | Rejected _ => failureReported st st' log
  | Resolved classifier =>
      match classifier img with
      | Rejected _ => failureReported st st' log
      | Resolved result =>
          results st' = processResults toLowerCase result /\
          filter isToast log =
            if noFishDetected (processResults toLowerCase result)
            then [ToastInfo noFishMessage] else []
      end
  end.
Proof.
  intros Hi Ht.
  destruct (pipeline "image-classification" "google/vit-base-patch16-224" "webgpu")
    as [classifier | error] eqn:Hp.
  - destruct (classifier img) as [result | error] eqn:Hc.
    + rewrite (identifyFish_resolved _ _ _ _ _ _ Hi Ht Hp Hc).
      repeat split.
      now destruct (noFishDetected (processResults toLowerCase result)).
    + rewrite (identifyFish_classifier_rejected _ _ _ _ _ _ Hi Ht Hp Hc).
      unfold failureReported. cbn. now rewrite Hi.
  - rewrite (identifyFish_pipeline_rejected _ _ _ _ _ Hi Ht Hp).
    unfold failureReported. cbn. now rewrite Hi.
Qed.

Lemma identifyFish_failure_and_busy_flag_witness :
  image sampleState = Some sampleImage /\
  JS.truthy (Some sampleImage) = true /\
  let '(completion, st', log) :=
    identifyFish asciiToLowerCase failingPipeline sampleState in
  completion = Normal tt /\
  isLoading st' = false /\
  failureReported sampleState st' log.
Proof.
  split; [reflexivity|]. split; [reflexivity|].
  exact (identifyFish_failure_and_busy_flag asciiToLowerCase failingPipeline
           sampleState sampleImage eq_refl eq_refl).
Defined.

Example classifier_failure_run :
  identifyFish asciiToLowerCase failingClassifier sampleState =
    (Normal tt,
     mkState (Some sampleImage) false (results sampleState) false,
     [pipelineCall; ClassifierCall sampleImage;
      ConsoleError consoleMessage; ToastError failedMessage]).
Proof. reflexivity. Qed.

Example successful_run :
  let '(completion, st', log) :=
    identifyFish asciiToLowerCase workingPipeline sampleState in
  completion = Normal tt /\
  isLoading st' = false /\
  map label (results st') = map item_label fiveEntries /\
  log = [pipelineCall; ClassifierCall sampleImage].
Proof. repeat split. Qed.

(** C5. When the classifier has answered, [identifyFish] stores the
    interpreted records and shows the "no fish" notification exactly when
    the species of every stored record is absent, which is exactly when
    its [every] test holds; the notification is then the only one shown,
    and none is shown otherwise.  On the empty answer the stored output
    is empty and the notification is shown. *)
Theorem no_fish_signal_iff_all_species_absent
    (toLowerCase : string -> string)
    (pipeline : string -> string -> string -> Outcome Classifier)
    (st : State) (img : string) (classifier : Classifier)
    (result : list ClassificationEntry) :
  toLowerCase EmptyString = EmptyString ->
  image st = Some img ->
  JS.truthy (Some img) = true ->
  pipeline "image-classification" "google/vit-base-patch16-224" "webgpu"
    = Resolved classifier ->
  classifier img = Resolved result ->
  let '(completion, st', log) := identifyFish toLowerCase pipeline st in
  completion = Normal tt /\
  results st' = processResults toLowerCase result /\
  (In (ToastInfo noFishMessage) log <->
   Forall (fun r => species r = None) (results st')) /\
  (noFishDetected (results st') = true <->
   Forall (fun r => species r = None) (results st')) /\
  filter isToast log =
    (if noFishDetected (results st') then [ToastInfo noFishMessage] else []) /\
  identifyFish toLowerCase (fun _ _ _ => Resolved (fun _ => Resolved [])) st =
    (Normal tt, mkState (Some img) false [] (isDragOver st),
     [pipelineCall; ClassifierCall img; ToastInfo noFishMessage]).
Proof.
  intros Hlow Hi Ht Hp Hc.
  rewrite (identifyFish_resolved _ _ _ _ _ _ Hi Ht Hp Hc).
  cbn [results].
  pose proof (noFishDetected_iff_absent toLowerCase result Hlow) as Habs.
  split; [reflexivity|]. split; [reflexivity|]. split; [|split; [exact Habs|split]].
  - rewrite <- Habs.
    destruct (noFishDetected (processResults toLowerCase result)); simpl.
    + split; [reflexivity | intros _; right; right; now left].
    + split; [|discriminate].
      intros [H | [H | H]]; [discriminate | discriminate | contradiction].
  - now destruct (noFishDetected (processResults toLowerCase result)).
  - exact (identifyFish_resolved toLowerCase
             (fun _ _ _ => Resolved (fun _ => Resolved [])) st img
             (fun _ => Resolved []) [] Hi Ht eq_refl eq_refl).
Qed.

Lemma no_fish_signal_iff_all_species_absent_witness :
  asciiToLowerCase EmptyString = EmptyString /\
  image sampleState = Some sampleImage /\
  JS.truthy (Some sampleImage) = true /\
  umbrellaPipeline "image-classification" "google/vit-base-patch16-224" "webgpu"
    = Resolved (fun _ => Resolved umbrellaEntries) /\
  let '(completion, st', log) :=
    identifyFish asciiToLowerCase umbrellaPipeline sampleState in
  completion = Normal tt /\
  results st' = processResults asciiToLowerCase umbrellaEntries /\
  (In (ToastInfo noFishMessage) log <->
   Forall (fun r => species r = None) (results st')) /\
  (noFishDetected (results st') = true <->
   Forall (fun r => species r = None) (results st')) /\
  filter isToast log =
    (if noFishDetected (results st') then [ToastInfo noFishMessage] else []) /\
  identifyFish asciiToLowerCase (fun _ _ _ => Resolved (fun _ => Resolved []))
    sampleState =
    (Normal tt, mkState (Some sampleImage) false [] (isDragOver sampleState),
     [pipelineCall; ClassifierCall sampleImage; ToastInfo noFishMessage]).
Proof.
  split; [reflexivity|]. split; [reflexivity|]. split; [reflexivity|].
  split; [reflexivity|].
  exact (no_fish_signal_iff_all_species_absent asciiToLowerCase umbrellaPipeline
           sampleState sampleImage (fun _ => Resolved umbrellaEntries)
           umbrellaEntries eq_refl eq_refl eq_refl eq_refl eq_refl).
Defined.

Example no_fish_signal_runs :
  logOf (identifyFish asciiToLowerCase umbrellaPipeline) sampleState
    = [pipelineCall; ClassifierCall sampleImage; ToastInfo noFishMessage] /\
  logOf (identifyFish asciiToLowerCase workingPipeline) sampleState
    = [pipelineCall; ClassifierCall sampleImage].
Proof. split; reflexivity. Qed.

(** C8. A file whose type does not start with "image/" is turned away:
    the upload handler leaves the whole state (image and results
    included) as it was and does nothing but show the validation message;
    the same holds when the file comes through the file input or through
    a drop, where only the drag highlight is cleared; the classifier is
    used in none of them. *)
Theorem non_image_file_rejected (file : File) (st : State) :
  JS.startsWith "image/" (file_type file) = false ->
  handleImageUpload file st = (Normal tt, st, [ToastError invalidImageMessage]) /\
  handleFileSelect (Some file) st = (Normal tt, st, [ToastError invalidImageMessage]) /\
  (let '(completion, st', log) := handleDrop (Some file) st in
   completion = Normal tt /\
   image st' = image st /\
   results st' = results st /\
   isLoading st' = isLoading st /\
   filter isToast log = [ToastError invalidImageMessage] /\
   filter isClassifierUse log = []).
Proof.
  intros H.
  assert (Hu : handleImageUpload file st
               = (Normal tt, st, [ToastError invalidImageMessage])).
  { unfold handleImageUpload. now rewrite H. }
  split; [exact Hu|]. split; [exact Hu|].
  unfold handleDrop, bind, emit, setIsDragOver, handleImageUpload.
  rewrite H. cbn. repeat split.
Qed.

Lemma non_image_file_rejected_witness :
  JS.startsWith "image/" (file_type pdfFile) = false /\
  handleImageUpload pdfFile sampleState
    = (Normal tt, sampleState, [ToastError invalidImageMessage]) /\
  handleFileSelect (Some pdfFile) sampleState
    = (Normal tt, sampleState, [ToastError invalidImageMessage]) /\
  (let '(completion, st', log) := handleDrop (Some pdfFile) sampleState in
   completion = Normal tt /\
   image st' = image sampleState /\
   results st' = results sampleState /\
   isLoading st' = isLoading sampleState /\
   filter isToast log = [ToastError invalidImageMessage] /\
   filter isClassifierUse log = []).
Proof.
  split; [reflexivity|].
  apply (non_image_file_rejected pdfFile sampleState). reflexivity.
Defined.

(** An image file is handed to the reader, and its data replaces the image
    and clears the results once read. *)
Example image_file_accepted :
  handleImageUpload (mkFile "catch.png" "image/png") sampleState
    = (Normal tt, sampleState, [ReadAsDataURL (mkFile "catch.png" "image/png")]) /\
  readerOnload (Some sampleImage) sampleState
    = (Normal tt, mkState (Some sampleImage) false [] false, []).
Proof. split; reflexivity. Qed.

(** ** The confidence badge *)

(** Comparison of binary64 values, through their specification. *)

Lemma SFcompare_antisym (x y : spec_float) :
  SFcompare y x = option_map CompOpp (SFcompare x y).
Proof.
  destruct x as [sx | sx | | sx mx ex], y as [sy | sy | | sy my ey]; simpl;
    try destruct sx; try destruct sy; try reflexivity;
    rewrite (Z.compare_antisym ex ey); destruct (ex ?= ey)%Z; simpl;
    try reflexivity; now rewrite (ZC4 my mx).
Qed.

Lemma SFcompare_None (x y : spec_float) :
  SFcompare x y = None <-> x = S754_nan \/ y = S754_nan.
Proof.
  destruct x as [sx | sx | | sx mx ex], y as [sy | sy | | sy my ey]; simpl;
    split; intros H; try discriminate; auto;
    destruct H as [H | H]; discriminate.
Qed.

Lemma SFcompare_refl (x : spec_float) :
  x <> S754_nan -> SFcompare x x = Some Eq.
Proof.
  destruct x as [sx | sx | | sx mx ex]; simpl; intros H;
    try destruct sx; try reflexivity; try contradiction;
    now rewrite Z.compare_refl, Pcompare_refl.
Qed.

Lemma is_nan_spec (x : float) :
  PrimFloat.is_nan x = true <-> Prim2SF x = S754_nan.
Proof.
  unfold PrimFloat.is_nan. rewrite FloatAxioms.eqb_spec. unfold SFeqb. split.
  - intros H. destruct (Prim2SF x) as [sx | sx | | sx mx ex]; try reflexivity;
      rewrite SFcompare_refl in H by discriminate; discriminate.
  - intros ->. reflexivity.
Qed.

(** [not (c < x)] is [x <= c] unless [x] is not a number. *)
Lemma ltb_false_iff (c x : float) :
  PrimFloat.is_nan c = false ->
  PrimFloat.ltb c x = false <->
  PrimFloat.leb x c = true \/ PrimFloat.is_nan x = true.
Proof.
  intros Hc. rewrite ltb_spec, leb_spec, is_nan_spec. unfold SFltb, SFleb.
  assert (Hc' : Prim2SF c <> S754_nan).
  { intros E. apply is_nan_spec in E. congruence. }
  rewrite (SFcompare_antisym (Prim2SF c) (Prim2SF x)).
  destruct (SFcompare (Prim2SF c) (Prim2SF x)) as [[]|] eqn:E; simpl.
  - split; auto.
  - split; [discriminate|]. intros [H | H]; [discriminate|].
    rewrite H in E. destruct (Prim2SF c); discriminate.
  - split; auto.
  - split; [|reflexivity]. intros _. right.
    apply SFcompare_None in E as [E | E]; [contradiction | exact E].
Qed.

Lemma ltb_true_not_nan (c x : float) :
  PrimFloat.ltb c x = true -> PrimFloat.is_nan x = false.
Proof.
  rewrite ltb_spec. unfold SFltb. intros H.
  destruct (PrimFloat.is_nan x) eqn:N; [|reflexivity].
  apply is_nan_spec in N. rewrite N in H.
  destruct (Prim2SF c); discriminate.
Qed.

(** Above the upper threshold is above the lower one. *)
Lemma above_upper_above_lower (x : float) :
  PrimFloat.ltb 0.7 x = true -> PrimFloat.ltb 0.4 x = true.
Proof.
  rewrite !ltb_spec.
  change (Prim2SF 0.7) with (S754_finite false 6305039478318694 (-53)).
  change (Prim2SF 0.4) with (S754_finite false 7205759403792794 (-54)).
  unfold SFltb.
  destruct (Prim2SF x) as [sx | sx | | sx mx ex]; cbn -[Z.compare Pos.compare_cont];
    try destruct sx; try discriminate; try reflexivity.
  destruct (-53 ?= ex)%Z eqn:E; try discriminate.
  - apply Z.compare_eq in E. subst ex. intros _. reflexivity.
  - intros _. rewrite Z.compare_lt_iff in E.
    assert (E' : (-54 ?= ex)%Z = Lt) by (apply Z.compare_lt_iff; lia).
    now rewrite E'.
Qed.

Lemma badgeTier_cases (score : float) :
  (badgeTier score = High <-> PrimFloat.ltb 0.7 score = true) /\
  (badgeTier score = Medium <->
   PrimFloat.ltb 0.7 score = false /\ PrimFloat.ltb 0.4 score = true) /\
  (badgeTier score = Low <->
   PrimFloat.ltb 0.7 score = false /\ PrimFloat.ltb 0.4 score = false).
Proof.
  unfold badgeTier.
  destruct (PrimFloat.ltb 0.7 score); destruct (PrimFloat.ltb 0.4 score);
    repeat split; intros; try discriminate;
    match goal with H : _ /\ _ |- _ => destruct H; discriminate end.
Qed.

(** C7 as stated fails at its own boundary case: the score 0.4 gets the
    low badge, not the medium one. *)
Lemma badge_of_exactly_0_4 :
  badgeTier 0.4%float = Low /\ badgeTier 0.4%float <> Medium.
Proof. split; [reflexivity | discriminate]. Qed.

(** C7, amended. The badge depends on the score alone: high when
    [0.7 < score]; medium when [0.4 < score] and [score <= 0.7]; low when
    [score <= 0.4] (or the score is not a number).  A score of exactly 0.7
    is medium and a score of exactly 0.4 is low. *)
Theorem badge_thresholds (score : float) :
  (badgeTier score = High <-> PrimFloat.ltb 0.7 score = true) /\
  (badgeTier score = Medium <->
   PrimFloat.ltb 0.4 score = true /\ PrimFloat.leb score 0.7 = true) /\
  (badgeTier score = Low <->
   PrimFloat.leb score 0.4 = true \/ PrimFloat.is_nan score = true) /\
  badgeTier 0.7%float = Medium /\
  badgeTier 0.4%float = Low.
Proof.
  pose proof (ltb_false_iff 0.7 score eq_refl) as H7.
  pose proof (ltb_false_iff 0.4 score eq_refl) as H4.
  pose proof (above_upper_above_lower score) as Hup.
  pose proof (ltb_true_not_nan 0.4 score) as Hnn.
  destruct (badgeTier_cases score) as [Hh [Hm Hl]].
  split; [exact Hh|]. split; [|split; [|split; reflexivity]].
  - rewrite Hm. split.
    + intros [L7 L4]. split; [exact L4|].
      apply H7 in L7 as [G | G]; [exact G|].
      rewrite (Hnn L4) in G. discriminate.
    + intros [L4 G]. split; [|exact L4]. apply H7. now left.
  - rewrite Hl, <- H4. split.
    + intros [_ L4]. exact L4.
    + intros L4. split; [|exact L4].
      destruct (PrimFloat.ltb 0.7 score); [|reflexivity].
      rewrite (Hup eq_refl) in L4. discriminate.
Qed.

Example badge_examples :
  badgeTier 0.92%float = High /\ badgeTier 0.7%float = Medium /\
  badgeTier 0.55%float = Medium /\ badgeTier 0.4%float = Low /\
  badgeTier 0.05%float = Low /\ badgeTier PrimFloat.nan = Low.
Proof. repeat split. Qed.

(** ** More on [extractGenus] and [extractSpecies] *)

Lemma string_app_assoc (a b c : string) :
  ((a ++ b) ++ c = a ++ (b ++ c))%string.
Proof. induction a as [|x a IH]; simpl; [reflexivity | now rewrite IH]. Qed.

Lemma string_app_nil_r (a : string) : (a ++ EmptyString)%string = a.
Proof. induction a as [|x a IH]; simpl; [reflexivity | now rewrite IH]. Qed.

Lemma string_app_length (a b : string) :
  String.length (a ++ b) = String.length a + String.length b.
Proof. induction a as [|x a IH]; simpl; [reflexivity | now rewrite IH]. Qed.

Lemma split_space_count (s : string) :
  List.length (JS.split_space s) = S (countSpaces s).
Proof.
  unfold JS.split_space. induction s as [|c s IH]; [reflexivity|].
  pose proof (splitBy_nonempty JS.isSpace s) as Hne.
  destruct (JS.splitBy JS.isSpace s) as [|w ws] eqn:E; [contradiction|].
  cbn [countSpaces]. destruct (JS.isSpace c) eqn:Hc.
  - rewrite (splitBy_at_sep _ _ _ Hc), E. simpl in *. now rewrite IH.
  - rewrite (splitBy_at_other _ _ _ _ _ Hc E). simpl in *. exact IH.
Qed.

(** What follows the first two pieces of a label. *)
Lemma label_after_two_pieces (label w w1 : string) (ws : list string) :
  JS.split_space label = w :: w1 :: ws ->
  exists rest,
    label = ((w ++ " " ++ w1) ++ rest)%string /\
    (ws = [] /\ rest = EmptyString \/
     exists w2 ws', ws = w2 :: ws' /\ rest = String " " (join_space (w2 :: ws'))).
Proof.
  intros E. pose proof (split_space_join label) as J. rewrite E in J.
  rewrite join_space_cons in J. destruct ws as [|w2 ws'].
  - exists EmptyString. split; [|left; now split].
    rewrite string_app_nil_r. now rewrite <- J.
  - exists (String " " (join_space (w2 :: ws'))). split.
    + rewrite join_space_cons in J. rewrite <- J.
      now rewrite !string_app_assoc.
    + right. now exists w2, ws'.
Qed.

(** X1. The genus is the part of the label before its first space: it holds no
    space, the label starts with it, and what follows is nothing or
    starts with a space. *)
Theorem extractGenus_before_first_space (label : string) :
  exists g rest,
    extractGenus label = Some g /\
    label = (g ++ rest)%string /\
    free_of JS.isSpace g = true /\
    (rest = EmptyString \/ exists r, rest = String " " r).
Proof.
  destruct (split_space_cons label) as [w [ws E]].
  pose proof (split_space_join label) as J.
  pose proof (splitBy_pieces_free JS.isSpace label) as F.
  unfold JS.split_space in E. rewrite E in F. fold (JS.split_space label) in E.
  rewrite E in J. simpl in F. apply andb_true_iff in F as [Fw _].
  destruct ws as [|w1 ws].
  - exists w, EmptyString. rewrite string_app_nil_r. simpl in J.
    repeat split; auto. exact (extractGenus_first _ _ _ E).
  - exists w, (String " " (join_space (w1 :: ws))).
    rewrite join_space_cons in J.
    repeat split; auto; [exact (extractGenus_first _ _ _ E) | right; eauto].
Qed.

(** X2. The species is cut out of the label, never made up: the label starts
    with it, what follows is nothing or starts with a space, and the
    species itself starts with the genus. *)
Theorem extractSpecies_is_prefix_of_label (label : string) :
  exists rest g tail,
    label = (extractSpecies label ++ rest)%string /\
    (rest = EmptyString \/ exists r, rest = String " " r) /\
    extractGenus label = Some g /\
    extractSpecies label = (g ++ tail)%string /\
    String.length (extractSpecies label) <= String.length label.
Proof.
  destruct (split_space_cons label) as [w [ws E]].
  rewrite (extractGenus_first _ _ _ E), (extractSpecies_pieces _ _ _ E).
  destruct ws as [|w1 ws].
  - pose proof (split_space_join label) as J. rewrite E in J. simpl in J.
    exists EmptyString, w, EmptyString. rewrite !string_app_nil_r.
    repeat split; auto.
  - destruct (label_after_two_pieces _ _ _ _ E) as [rest [Hl Hr]].
    exists rest, w, (" " ++ w1)%string. repeat split; auto.
    + destruct Hr as [[_ ->] | [w2 [ws' [_ ->]]]]; [now left | right; eauto].
    + rewrite Hl, (string_app_length (w ++ " " ++ w1) rest). lia.
Qed.

Lemma first_two_pieces_free (label w w1 : string) (ws : list string) :
  JS.split_space label = w :: w1 :: ws ->
  forallb (free_of JS.isSpace) [w; w1] = true.
Proof.
  intros E. pose proof (splitBy_pieces_free JS.isSpace label) as F.
  unfold JS.split_space in E. rewrite E in F. simpl in *.
  apply andb_true_iff in F as [Fw F]. apply andb_true_iff in F as [Fw1 _].
  now rewrite Fw, Fw1.
Qed.

(** X3. Extracting from a species gives the species again, with the genus of
    the label: both extractions are stable under a second pass. *)
Theorem extractSpecies_idempotent (label : string) :
  extractSpecies (extractSpecies label) = extractSpecies label /\
  extractGenus (extractSpecies label) = extractGenus label.
Proof.
  destruct (split_space_cons label) as [w [ws E]].
  rewrite (extractSpecies_pieces _ _ _ E), (extractGenus_first _ _ _ E).
  destruct ws as [|w1 ws].
  - now rewrite (extractSpecies_pieces _ _ _ E), (extractGenus_first _ _ _ E).
  - assert (E2 : JS.split_space (w ++ " " ++ w1) = [w; w1]).
    { change (w ++ " " ++ w1)%string with (join_space [w; w1]).
      apply split_space_unique; [discriminate|].
      exact (first_two_pieces_free _ _ _ _ E). }
    now rewrite (extractSpecies_pieces _ _ _ E2), (extractGenus_first _ _ _ E2).
Qed.

Lemma countSpaces_app (a b : string) :
  countSpaces (a ++ b) = countSpaces a + countSpaces b.
Proof.
  induction a as [|c a IH]; [reflexivity|].
  cbn [append countSpaces]. rewrite IH. apply Nat.add_assoc.
Qed.

Lemma countSpaces_free (w : string) :
  free_of JS.isSpace w = true -> countSpaces w = 0.
Proof.
  induction w as [|c w IH]; [reflexivity|].
  cbn [free_of countSpaces]. rewrite andb_true_iff, negb_true_iff.
  intros [-> Hw]. now rewrite (IH Hw).
Qed.

(** X4. The species is the whole label exactly when the label holds fewer than
    two spaces; with two or more, the species holds exactly one space and
    the label is the species followed by a space and a remainder:
    everything from the second space on is dropped. *)
Theorem extractSpecies_whole_label_iff (label : string) :
  (extractSpecies label = label <-> countSpaces label <= 1) /\
  (if (countSpaces label <=? 1)%nat
   then extractSpecies label = label
   else countSpaces (extractSpecies label) = 1 /\
        exists rest, label = (extractSpecies label ++ String " " rest)%string).
Proof.
  pose proof (split_space_count label) as C.
  destruct (split_space_cons label) as [w [ws E]].
  rewrite (extractSpecies_pieces _ _ _ E). rewrite E in C.
  destruct ws as [|w1 ws].
  - simpl in C. injection C as C. rewrite <- C. cbn.
    split; [split; [lia | reflexivity] | reflexivity].
  - destruct (label_after_two_pieces _ _ _ _ E) as [rest [Hl Hr]].
    destruct Hr as [[-> ->] | [w2 [ws' [-> ->]]]].
    + simpl in C. injection C as C. rewrite <- C. cbn.
      rewrite string_app_nil_r in Hl.
      split; [split; [lia | now intros _] | now symmetry].
    + pose proof (first_two_pieces_free _ _ _ _ E) as F. simpl in F.
      apply andb_true_iff in F as [Fw F]. apply andb_true_iff in F as [Fw1 _].
      assert (Hs : countSpaces (w ++ " " ++ w1) = 1).
      { rewrite !countSpaces_app, (countSpaces_free _ Fw), (countSpaces_free _ Fw1).
        reflexivity. }
      assert (Hc : 2 <= countSpaces label) by (simpl in C; lia).
      destruct (Nat.leb_spec (countSpaces label) 1) as [Hle | _]; [lia|].
      split; [|split; [exact Hs | eauto]].
      split; [|lia]. intros H. rewrite H in Hs. lia.
Qed.

(** ** What a result card shows *)

(** X5. A card shows the genus and species rows exactly for the records made
    from a fish-related entry, and then the genus it shows is defined. *)
Theorem taxonomy_shown_iff_related
    (toLowerCase : string -> string) (item : ClassificationEntry) :
  toLowerCase EmptyString = EmptyString ->
  showsTaxonomy (processItem toLowerCase item) = isFishRelated toLowerCase item /\
  (if showsTaxonomy (processItem toLowerCase item)
   then exists g, genus (processItem toLowerCase item) = Some g
   else genus (processItem toLowerCase item) = None).
Proof.
  intros Hlow. unfold showsTaxonomy.
  pose proof (species_falsy_iff_absent toLowerCase item Hlow) as Ha.
  destruct (isFishRelated toLowerCase item) eqn:R.
  - rewrite (processItem_related _ _ R) in *. cbn [species genus] in *.
    destruct (split_space_cons (item_label item)) as [w [ws E]].
    rewrite (extractGenus_first _ _ _ E).
    destruct (JS.truthy (Some (extractSpecies (item_label item)))).
    + split; [reflexivity | eauto].
    + destruct Ha as [Ha _]. specialize (Ha eq_refl). discriminate.
  - rewrite (processItem_unrelated _ _ R). cbn. split; reflexivity.
Qed.

Lemma taxonomy_shown_iff_related_witness :
  asciiToLowerCase EmptyString = EmptyString /\
  showsTaxonomy (processItem asciiToLowerCase (mkEntry "tiger shark" 0.92%float)) = true /\
  showsTaxonomy (processItem asciiToLowerCase (mkEntry "tiger shark" 0.92%float))
    = isFishRelated asciiToLowerCase (mkEntry "tiger shark" 0.92%float) /\
  (if showsTaxonomy (processItem asciiToLowerCase (mkEntry "tiger shark" 0.92%float))
   then exists g,
     genus (processItem asciiToLowerCase (mkEntry "tiger shark" 0.92%float)) = Some g
   else genus (processItem asciiToLowerCase (mkEntry "tiger shark" 0.92%float)) = None).
Proof.
  split; [reflexivity|]. split; [reflexivity|].
  apply (taxonomy_shown_iff_related asciiToLowerCase (mkEntry "tiger shark" 0.92%float)).
  reflexivity.
Defined.

Lemma noFishDetected_no_related
    (toLowerCase : string -> string) (l : list ClassificationEntry) :
  toLowerCase EmptyString = EmptyString ->
  noFishDetected (map (processItem toLowerCase) l)
    = negb (existsb (isFishRelated toLowerCase) l).
Proof.
  intros Hlow. unfold noFishDetected, JS.every.
  induction l as [|item l IH]; [reflexivity|].
  cbn [map forallb existsb]. rewrite IH, negb_orb. f_equal.
  pose proof (species_falsy_iff_absent toLowerCase item Hlow) as Ha.
  destruct (isFishRelated toLowerCase item) eqn:R.
  - rewrite (processItem_related _ _ R) in *. cbn [species] in *.
    destruct (negb (JS.truthy (Some (extractSpecies (item_label item)))));
      [|reflexivity].
    destruct Ha as [Ha _]. specialize (Ha eq_refl). discriminate.
  - now rewrite (processItem_unrelated _ _ R).
Qed.

(** X6. The "might not be a fish" test holds exactly when none of the first
    five entries is fish-related; entries from the sixth on are not looked
    at, so a fish label there does not prevent the notice. *)
Theorem no_fish_notice_iff_none_of_first_five
    (toLowerCase : string -> string) (result : list ClassificationEntry) :
  toLowerCase EmptyString = EmptyString ->
  noFishDetected (processResults toLowerCase result)
    = negb (existsb (isFishRelated toLowerCase) (firstn 5 result)).
Proof.
  intros Hlow. rewrite processResults_firstn.
  now apply noFishDetected_no_related.
Qed.

Lemma no_fish_notice_iff_none_of_first_five_witness :
  asciiToLowerCase EmptyString = EmptyString /\
  existsb (isFishRelated asciiToLowerCase) sixEntries = true /\
  noFishDetected (processResults asciiToLowerCase sixEntries) = true /\
  noFishDetected (processResults asciiToLowerCase sixEntries)
    = negb (existsb (isFishRelated asciiToLowerCase) (firstn 5 sixEntries)).
Proof.
  split; [reflexivity|]. split; [reflexivity|]. split; [reflexivity|].
  apply (no_fish_notice_iff_none_of_first_five asciiToLowerCase sixEntries).
  reflexivity.
Defined.

(** ** More on the handlers *)

Lemma truthy_image (st : State) :
  JS.truthy (image st) = true ->
  exists img, image st = Some img /\ JS.truthy (Some img) = true.
Proof.
  destruct (image st) as [img|]; [|discriminate]. intros H. now exists img.
Qed.

(** X7. Whatever the state and however the awaited calls settle,
    [identifyFish] completes normally, leaves the image and the drag
    highlight alone, and stores either nothing new or at most five
    records; without an image it does nothing at all, otherwise the busy
    flag ends [false]. *)
Theorem identifyFish_frame
    (toLowerCase : string -> string)
    (pipeline : string -> string -> string -> Outcome Classifier) (st : State) :
  let '(completion, st', log) := identifyFish toLowerCase pipeline st in
  completion = Normal tt /\
  image st' = image st /\
  isDragOver st' = isDragOver st /\
  (results st' = results st \/ List.length (results st') <= 5) /\
  (if JS.truthy (image st) then isLoading st' = false else st' = st /\ log = []).
Proof.
  destruct (JS.truthy (image st)) eqn:T.
  - destruct (truthy_image st T) as [img [Hi Ht]].
    destruct (pipeline "image-classification" "google/vit-base-patch16-224" "webgpu")
      as [classifier | error] eqn:Hp.
    + destruct (classifier img) as [result | error] eqn:Hc.
      * rewrite (identifyFish_resolved _ _ _ _ _ _ Hi Ht Hp Hc).
        cbn [image isDragOver results isLoading]. rewrite Hi.
        repeat split. right. rewrite processResults_length. apply Nat.le_min_r.
      * rewrite (identifyFish_classifier_rejected _ _ _ _ _ _ Hi Ht Hp Hc).
        cbn [image isDragOver results isLoading]. rewrite Hi. repeat split. now left.
    + rewrite (identifyFish_pipeline_rejected _ _ _ _ _ Hi Ht Hp).
      cbn [image isDragOver results isLoading]. rewrite Hi. repeat split. now left.
  - rewrite (identifyFish_without_image _ _ _ T). repeat split. now left.
Qed.

(** X8. One call of [identifyFish] on a loaded image creates the pipeline
    once and calls the classifier at most once, on the stored image and
    only when the pipeline was created: nothing is retried. *)
Theorem identifyFish_uses_classifier_once
    (toLowerCase : string -> string)
    (pipeline : string -> string -> string -> Outcome Classifier)
    (st : State) (img : string) :
  image st = Some img ->
  JS.truthy (Some img) = true ->
  filter isClassifierUse (logOf (identifyFish toLowerCase pipeline) st) =
    match pipeline "image-classification" "google/vit-base-patch16-224" "webgpu" with
    | Rejected _ => [pipelineCall]
    | Resolved _ => [pipelineCall; ClassifierCall img]
    end.
Proof.
  intros Hi Ht. unfold logOf.
  destruct (pipeline "image-classification" "google/vit-base-patch16-224" "webgpu")
    as [classifier | error] eqn:Hp.
  - destruct (classifier img) as [result | error] eqn:Hc.
    + rewrite (identifyFish_resolved _ _ _ _ _ _ Hi Ht Hp Hc). cbn [snd].
      now destruct (noFishDetected (processResults toLowerCase result)).
    + now rewrite (identifyFish_classifier_rejected _ _ _ _ _ _ Hi Ht Hp Hc).
  - now rewrite (identifyFish_pipeline_rejected _ _ _ _ _ Hi Ht Hp).
Qed.

Lemma identifyFish_uses_classifier_once_witness :
  image sampleState = Some sampleImage /\
  JS.truthy (Some sampleImage) = true /\
  filter isClassifierUse (logOf (identifyFish asciiToLowerCase failingClassifier) sampleState)
    = [pipelineCall; ClassifierCall sampleImage].
Proof.
  split; [reflexivity|]. split; [reflexivity|].
  exact (identifyFish_uses_classifier_once asciiToLowerCase failingClassifier
           sampleState sampleImage eq_refl eq_refl).
Defined.

Lemma readerOnload_run (r : option string) (st : State) :
  readerOnload r st = (Normal tt, mkState r (isLoading st) [] (isDragOver st), []).
Proof. reflexivity. Qed.

(** X9. When a new image has been read and an identification is then run
    on it with nothing in between, the identification works on that image
    alone: the classifier is called on no other image, and what is stored
    afterwards is the interpretation of its answer, or nothing when the
    identification fails, whatever was stored before the read. *)
Theorem identify_after_new_image
    (toLowerCase : string -> string)
    (pipeline : string -> string -> string -> Outcome Classifier)
    (st : State) (img : string) :
  JS.truthy (Some img) = true ->
  let '(completion, st', log) :=
    (readerOnload (Some img) ;; identifyFish toLowerCase pipeline) st in
  image st' = Some img /\
  isLoading st' = false /\
  results st' =
    match pipeline "image-classification" "google/vit-base-patch16-224" "webgpu" with
    | Rejected _ => []
    | Resolved classifier =>
        match classifier img with
        | Rejected _ => []
        | Resolved result => processResults toLowerCase result
        end
    end /\
  (forall other, In (ClassifierCall other) log -> other = img).
Proof.
  intros Ht. unfold bind at 1. rewrite readerOnload_run.
  set (st0 := mkState (Some img) (isLoading st) [] (isDragOver st)).
  assert (Hi : image st0 = Some img) by reflexivity.
  destruct (pipeline "image-classification" "google/vit-base-patch16-224" "webgpu")
    as [classifier | error] eqn:Hp.
  - destruct (classifier img) as [result | error] eqn:Hc.
    + rewrite (identifyFish_resolved _ _ _ _ _ _ Hi Ht Hp Hc).
      repeat split. intros other Hin. simpl in Hin.
      destruct Hin as [H | [H | H]]; [discriminate | now injection H |].
      destruct (noFishDetected (processResults toLowerCase result));
        simpl in H; [destruct H as [H | H]; [discriminate | contradiction] | contradiction].
    + rewrite (identifyFish_classifier_rejected _ _ _ _ _ _ Hi Ht Hp Hc).
      repeat split. intros other Hin. simpl in Hin.
      destruct Hin as [H | [H | [H | [H | H]]]];
        try discriminate; [now injection H | contradiction].
  - rewrite (identifyFish_pipeline_rejected _ _ _ _ _ Hi Ht Hp).
    repeat split. intros other Hin. simpl in Hin.
    destruct Hin as [H | [H | [H | H]]]; try discriminate; contradiction.
Qed.

Lemma identify_after_new_image_witness :
  JS.truthy (Some sampleImage) = true /\
  let '(completion, st', log) :=
    (readerOnload (Some sampleImage) ;; identifyFish asciiToLowerCase workingPipeline)
      sampleState in
  image st' = Some sampleImage /\
  isLoading st' = false /\
  results st' = processResults asciiToLowerCase fiveEntries /\
  (forall other, In (ClassifierCall other) log -> other = sampleImage).
Proof.
  split; [reflexivity|].
  exact (identify_after_new_image asciiToLowerCase workingPipeline
           sampleState sampleImage eq_refl).
Defined.

(** X10. However a file arrives (file input or drop) the handlers themselves
    never touch the image, the results or the busy flag; a drop clears
    the drag highlight, also right after a drag-over; and exactly one of
    three things happens: nothing without a file, a read for a file whose
    type starts with "image/", the validation message for any other. *)
Theorem file_handlers_read_or_reject (file : option File) (st : State) :
  let outcome :=
    match file with
    | None => []
    | Some f =>
        if JS.startsWith "image/" (file_type f)
        then [ReadAsDataURL f]
        else [ToastError invalidImageMessage]
    end in
  handleFileSelect file st = (Normal tt, st, outcome) /\
  handleDrop file st =
    (Normal tt, mkState (image st) (isLoading st) (results st) false,
     PreventDefault :: outcome) /\
  stateAfter (handleDragOver ;; handleDrop file) st = stateAfter (handleDrop file) st /\
  List.length (filter isToast outcome) + List.length (filter isReaderUse outcome)
    = match file with Some _ => 1 | None => 0 end /\
  filter isClassifierUse outcome = [].
Proof.
  cbv zeta. destruct file as [f|].
  - unfold handleFileSelect, handleDrop, handleDragOver, stateAfter,
      handleImageUpload, bind, emit, setIsDragOver.
    destruct (JS.startsWith "image/" (file_type f)); cbn; repeat split.
  - repeat split.
Qed.

(** X11. "Upload Different Image" empties the image, the results and a mounted
    file input, so that the upload prompt is shown without any result
    card; an identification requested on that state does nothing: no
    call, no notification, no busy flag. *)
Theorem identify_after_reset
    (toLowerCase : string -> string)
    (pipeline : string -> string -> string -> Outcome Classifier)
    (fileInput : option string) (st : State) :
  uploadDifferentImage fileInput st =
    (Normal (option_map (fun _ => EmptyString) fileInput),
     mkState None (isLoading st) [] (isDragOver st), []) /\
  showsPreview (stateAfter (uploadDifferentImage fileInput) st) = false /\
  showsResults (stateAfter (uploadDifferentImage fileInput) st) = false /\
  (uploadDifferentImage fileInput ;; identifyFish toLowerCase pipeline) st =
    (Normal tt, mkState None (isLoading st) [] (isDragOver st), []).
Proof.
  assert (H : uploadDifferentImage fileInput st =
    (Normal (option_map (fun _ => EmptyString) fileInput),
     mkState None (isLoading st) [] (isDragOver st), [])).
  { destruct fileInput; reflexivity. }
  split; [exact H|]. unfold stateAfter. rewrite H.
  split; [reflexivity|]. split; [reflexivity|].
  unfold bind at 1. rewrite H.
  now rewrite identifyFish_without_image.
Qed.

(** ** [identifyFish] with other handlers in between *)

(** The three stretches, run with nothing in between, are [identifyFish]. *)
Lemma identifyFishInOneGo_agrees
    (toLowerCase : string -> string)
    (pipeline : string -> string -> string -> Outcome Classifier) (st : State) :
  identifyFishInOneGo toLowerCase pipeline st = identifyFish toLowerCase pipeline st.
Proof.
  destruct (JS.truthy (image st)) eqn:T.
  - destruct (truthy_image st T) as [img [Hi Ht]].
    unfold identifyFishInOneGo, identifyFishStart, identifyFishPipelineSettled,
      identifyFishClassifierSettled, identifyFishFailed, bind at 1 2 3, readState.
    rewrite T, Hi.
    destruct (pipeline "image-classification" "google/vit-base-patch16-224" "webgpu")
      as [classifier | error] eqn:Hp.
    + destruct (classifier img) as [result | error] eqn:Hc.
      * rewrite (identifyFish_resolved _ _ _ _ _ _ Hi Ht Hp Hc).
        cbn -[processResults noFishDetected]. rewrite Hc.
        destruct (noFishDetected (processResults toLowerCase result));
          cbn -[processResults]; now rewrite Hi.
      * rewrite (identifyFish_classifier_rejected _ _ _ _ _ _ Hi Ht Hp Hc).
        cbn. rewrite Hc. cbn. now rewrite Hi.
    + rewrite (identifyFish_pipeline_rejected _ _ _ _ _ Hi Ht Hp).
      cbn. now rewrite Hi.
  - rewrite (identifyFish_without_image _ _ _ T).
    unfold identifyFishInOneGo, identifyFishStart, bind, readState. now rewrite T.
Qed.

Lemma identifyFishStart_run (st : State) (img : string) :
  image st = Some img -> JS.truthy (Some img) = true ->
  identifyFishStart st =
    (Normal (Some img), mkState (Some img) true (results st) (isDragOver st),
     [pipelineCall]).
Proof.
  intros Hi Ht. unfold identifyFishStart, bind, readState.
  rewrite Hi, Ht. cbn. now rewrite Hi.
Qed.

(** X12. When the image is replaced or removed while an identification is in
    flight, the identification goes on with the image it started with:
    the classifier is called on the old image, and its interpreted answer
    is stored beside the new image (or beside none).  The busy flag is set
    while the request is out and cleared at the end. *)
Theorem stale_results_after_image_change
    (toLowerCase : string -> string) (st : State) (img : string)
    (newImage : option string) (classifier : Classifier)
    (result : list ClassificationEntry) :
  image st = Some img ->
  JS.truthy (Some img) = true ->
  classifier img = Resolved result ->
  let st1 := stateAfter identifyFishStart st in
  let st2 := stateAfter (readerOnload newImage) st1 in
  let st3 := stateAfter (identifyFishPipelineSettled img (Resolved classifier)) st2 in
  let st4 := stateAfter (identifyFishClassifierSettled toLowerCase (classifier img)) st3 in
  identifyDisabled st1 = true /\
  identifyDisabled st2 = true /\
  logOf (identifyFishPipelineSettled img (Resolved classifier)) st2
    = [ClassifierCall img] /\
  image st4 = newImage /\
  results st4 = processResults toLowerCase result /\
  identifyDisabled st4 = false.
Proof.
  intros Hi Ht Hc. cbv zeta. unfold stateAfter, logOf.
  rewrite (identifyFishStart_run _ _ Hi Ht), Hc, readerOnload_run.
  cbn -[processResults noFishDetected].
  destruct (noFishDetected (processResults toLowerCase result)); repeat split.
Qed.

Lemma stale_results_after_image_change_witness :
  image sampleState = Some sampleImage /\
  JS.truthy (Some sampleImage) = true /\
  let st1 := stateAfter identifyFishStart sampleState in
  let st2 := stateAfter (readerOnload None) st1 in
  let st3 := stateAfter
    (identifyFishPipelineSettled sampleImage (Resolved (fun _ => Resolved fiveEntries)))
    st2 in
  let st4 := stateAfter
    (identifyFishClassifierSettled asciiToLowerCase (Resolved fiveEntries)) st3 in
  identifyDisabled st1 = true /\
  identifyDisabled st2 = true /\
  logOf (identifyFishPipelineSettled sampleImage (Resolved (fun _ => Resolved fiveEntries)))
    st2 = [ClassifierCall sampleImage] /\
  image st4 = None /\
  results st4 = processResults asciiToLowerCase fiveEntries /\
  identifyDisabled st4 = false.
Proof.
  split; [reflexivity|]. split; [reflexivity|].
  exact (stale_results_after_image_change asciiToLowerCase sampleState sampleImage
           None (fun _ => Resolved fiveEntries) fiveEntries eq_refl eq_refl eq_refl).
Defined.

Example results_without_image_after_race :
  let st1 := stateAfter identifyFishStart sampleState in
  let st2 := stateAfter (uploadDifferentImage (Some "catch.png")) st1 in
  let st3 := stateAfter
    (identifyFishPipelineSettled sampleImage (Resolved (fun _ => Resolved fiveEntries)))
    st2 in
  let st4 := stateAfter
    (identifyFishClassifierSettled asciiToLowerCase (Resolved fiveEntries)) st3 in
  showsPreview st4 = false /\ showsResults st4 = true.
Proof. split; reflexivity. Qed.

(** ** The badge follows the score *)

Lemma SFltb_leb_trans (x y z : spec_float) :
  SFltb x y = true -> SFleb y z = true -> SFltb x z = true.
Proof.
  unfold SFltb, SFleb.
  destruct x as [sx | sx | | sx mx ex], y as [sy | sy | | sy my ey],
           z as [sz | sz | | sz mz ez];
    cbn -[Z.compare Pos.compare_cont];
    try destruct sx; try destruct sy; try destruct sz;
    try discriminate; try reflexivity;
    change (Pos.compare_cont Eq) with Pos.compare;
    repeat match goal with
      | |- context [(?a ?= ?b)%Z] => destruct (Z.compare_spec a b)
      | |- context [(?a ?= ?b)%positive] => destruct (Pos.compare_spec a b)
      end;
    cbn; try discriminate; try reflexivity; intros; subst; lia.
Qed.

(** X13. A score that is not lower never gets a lower badge. *)
Theorem badgeTier_monotone (low high : float) :
  PrimFloat.leb low high = true ->
  tierRank (badgeTier low) <= tierRank (badgeTier high).
Proof.
  intros Hle. rewrite leb_spec in Hle.
  assert (Hup : forall c, PrimFloat.ltb c low = true -> PrimFloat.ltb c high = true).
  { intros c Hc. rewrite ltb_spec in *. exact (SFltb_leb_trans _ _ _ Hc Hle). }
  unfold badgeTier.
  destruct (PrimFloat.ltb 0.7 low) eqn:L7.
  - rewrite (Hup _ L7). apply Nat.le_refl.
  - destruct (PrimFloat.ltb 0.4 low) eqn:L4.
    + rewrite (Hup _ L4). destruct (PrimFloat.ltb 0.7 high); simpl; lia.
    + simpl. lia.
Qed.

Lemma badgeTier_monotone_witness :
  PrimFloat.leb 0.4%float 0.41%float = true /\
  badgeTier 0.4%float = Low /\
  badgeTier 0.41%float = Medium /\
  tierRank (badgeTier 0.4%float) <= tierRank (badgeTier 0.41%float).
Proof.
  split; [reflexivity|]. split; [reflexivity|]. split; [reflexivity|].
  apply (badgeTier_monotone 0.4%float 0.41%float). reflexivity.
Defined.
